(** * Blog API: a shallow embedding of [models.js] and [server.js]

    The development follows the two source files.

    - [Js]: the fragment of JavaScript the two files rely on: JSON values,
      truthiness, strict equality against a string, the [in] operator,
      property reads, string conversion in template literals, [trim], and
      exceptions.
    - [Models]: the schema of [models.js], the [authorString] virtual and
      the [serialize] instance method.
    - [Server]: the five route handlers of [server.js].  A handler either
      answers at once, throws, or issues one store query whose promise is
      consumed by a [.then(..).catch(..)] chain.
    - [Store]: the reading of the mongoose calls the handlers issue
      (find/limit, findById, create, findByIdAndUpdate with [$set],
      findByIdAndRemove) against an in-memory collection.  The two casts
      that depend on the mongoose release are section variables.
    - [Lifecycle]: [runServer] and [closeServer].
    - [Notions]: predicates used to state properties of the routes. *)

From stdpp Require Import gmap strings list fin_maps pretty.

Set Default Proof Using "Type".
#[local] Set Warnings "-register-all".

(* ===================================================================== *)
(** ** JavaScript values and operators                                    *)
(* ===================================================================== *)

Module Js.

(** Values as [express.json()] hands them to the handlers and as the
    driver returns them for a Mixed path.  Numbers are the integers;
    floating point is outside this embedding.  [VUndefined] is not a JSON
    value: it is what reading an absent property yields. *)
Inductive value : Type :=
| VUndefined
| VNull
| VBool (b : bool)
| VNum (n : Z)
| VStr (s : string)
| VArr (items : list value)
| VObj (props : gmap string value).

(** What a [throw] carries and what a rejected promise is rejected with.
    [TypeError] is raised by the language; the others come from the store
    ([Unavailable] stands for every failure of the driver or the
    connection). *)
Inductive error : Type :=
| TypeError
| CastError (path : string)
| ValidationError (paths : list string)
| Unavailable (reason : string).

(** Computations that may throw. *)
Inductive js (A : Type) : Type :=
| Ok (a : A)
| Throw (e : error).
Arguments Ok {A} a.
Arguments Throw {A} e.

#[global] Instance js_ret : MRet js := λ A a, Ok a.

#[global] Instance js_bind : MBind js := λ A B f m,
  match m with
  | Ok a => f a
  | Throw e => Throw e
  end.

(** [xs.map(f)] where [f] may throw: the first exception aborts the map. *)
Fixpoint js_map {A B} (f : A → js B) (xs : list A) : js (list B) :=
  match xs with
  | [] => Ok []
  | x :: rest => y ← f x ; ys ← js_map f rest ; Ok (y :: ys)
  end.

(** ToBoolean. *)
Definition truthy (v : value) : bool :=
  match v with
  | VUndefined | VNull => false
  | VBool b => b
  | VNum n => negb (n =? 0)%Z
  | VStr s => negb (String.eqb s EmptyString)
  | VArr _ | VObj _ => true
  end.

(** [s === v] for a string [s]: true only for the same string. *)
Definition strict_equals_string (s : string) (v : value) : bool :=
  match v with
  | VStr s' => String.eqb s s'
  | _ => false
  end.

(** [k in o] for an object parsed from JSON and a name that
    [Object.prototype] does not define.  [express.json()] sets [req.body]
    to the parsed object, or to the empty object when the request carries
    no JSON; a JSON array has none of the names this program tests and
    behaves as the empty object. *)
Definition has_property (k : string) (o : gmap string value) : bool :=
  bool_decide (is_Some (o !! k)).

(** [o[k]] for an object parsed from JSON: an absent property reads as
    [undefined]. *)
Definition get (o : gmap string value) (k : string) : value :=
  default VUndefined (o !! k).

(** [v.k] for an arbitrary value and a name that no prototype defines
    (this program reads [firstName] and [lastName] only): [null] and
    [undefined] throw, objects look the name up, every other value has no
    such property. *)
Definition get_member (v : value) (k : string) : js value :=
  match v with
  | VUndefined | VNull => Throw TypeError
  | VObj props => Ok (get props k)
  | VBool _ | VNum _ | VStr _ | VArr _ => Ok VUndefined
  end.

(** ToString, as a template literal applies it to each substitution.  An
    object parsed from JSON is printed by [Object.prototype.toString]
    unless it has an own [toString] property; that property is not
    callable, [valueOf] returns the object itself, and the conversion
    throws.  An array is printed by [join], which prints [null] and
    [undefined] elements as the empty string. *)
Fixpoint ToString (v : value) : js string :=
  match v with
  | VUndefined => Ok "undefined"
  | VNull => Ok "null"
  | VBool true => Ok "true"
  | VBool false => Ok "false"
  | VNum n => Ok (pretty n)
  | VStr s => Ok s
  | VArr items =>
      let element (x : value) : js string :=
        match x with
        | VUndefined | VNull => Ok EmptyString
        | _ => ToString x
        end in
      (fix join (xs : list value) : js string :=
         match xs with
         | [] => Ok EmptyString
         | [x] => element x
         | x :: rest => s ← element x ; r ← join rest ; Ok (s +:+ "," +:+ r)
         end) items
  | VObj props =>
      if has_property "toString" props then Throw TypeError
      else Ok "[object Object]"
  end.

(** White space removed by [String.prototype.trim], restricted to ASCII
    (strings are byte strings here): TAB, LF, VT, FF, CR and SPACE. *)
Definition is_whitespace (c : Ascii.ascii) : bool :=
  let n := Ascii.N_of_ascii c in
  ((9 <=? n) && (n <=? 13) || (n =? 32))%N.

Fixpoint trim_start (s : string) : string :=
  match s with
  | EmptyString => EmptyString
  | String c rest => if is_whitespace c then trim_start rest else s
  end.

Fixpoint trim_end (s : string) : string :=
  match s with
  | EmptyString => EmptyString
  | String c rest =>
      match trim_end rest with
      | EmptyString => if is_whitespace c then EmptyString else String c EmptyString
      | rest' => String c rest'
      end
  end.

Definition trim (s : string) : string := trim_end (trim_start s).

End Js.
Export Js.

(* ===================================================================== *)
(** ** models.js                                                          *)
(* ===================================================================== *)

Module Models.

(** The driver's [ObjectId], identified with its hexadecimal rendering. *)
Definition ObjectId : Type := string.

(** [mongoose.Schema({...})]: the declared paths. *)
Inductive SchemaType : Type := String_ | Object_ | Date_.

Inductive SchemaDefault : Type := NoDefault | Date_now.

Record SchemaPath : Type := mkPath {
  path : string;
  type : SchemaType;
  required : bool;
  default_ : SchemaDefault
}.

Definition title_path : SchemaPath := mkPath "title" String_ true NoDefault.
Definition content_path : SchemaPath := mkPath "content" String_ true NoDefault.
Definition author_path : SchemaPath := mkPath "author" Object_ true NoDefault.
Definition created_path : SchemaPath := mkPath "created" Date_ false Date_now.

Definition blogpostSchema : list SchemaPath :=
  [title_path; content_path; author_path; created_path].

(** A document of the [BlogPosts] model: [_id] is assigned by the driver,
    [created] is a time stamp in milliseconds. *)
Record document : Type := mkDocument {
  _id : ObjectId;
  title : value;
  content : value;
  author : value;
  created : Z
}.

(** What [serialize] returns. *)
Record PublicView : Type := mkView {
  view_id : ObjectId;
  view_title : value;
  view_content : value;
  view_author : string;
  view_created : Z
}.

(** The virtual [authorString]:
    [`${this.author.firstName} ${this.author.lastName}`.trim()]. *)
Definition authorString (this : document) : js string :=
  firstName ← get_member (author this) "firstName" ;
  first ← ToString firstName ;
  lastName ← get_member (author this) "lastName" ;
  last ← ToString lastName ;
  Ok (trim (first +:+ " " +:+ last)).

(** The instance method [serialize]. *)
Definition serialize (this : document) : js PublicView :=
  a ← authorString this ;
  Ok {| view_id := _id this;
        view_title := title this;
        view_content := content this;
        view_author := a;
        view_created := created this |}.

End Models.
Export Models.

(* ===================================================================== *)
(** ** server.js: the route handlers                                      *)
(* ===================================================================== *)

Module Server.

(** What a handler sends: [res.end()], [res.send(text)] or [res.json(..)]
    of a message object, of one public view, or of the list envelope
    [{ blogposts: [...] }]. *)
Inductive sent_body : Type :=
| Empty
| Text (text : string)
| JsonMessage (message : string)
| JsonView (view : PublicView)
| JsonBlogposts (blogposts : list PublicView).

Record response : Type := mkResponse {
  status : Z;
  payload : sent_body
}.

(** [console.error] and [console.log] output, kept on the server. *)
Inductive log_entry : Type :=
| LogText (text : string)
| LogError (err : error).

Record outcome : Type := mkOutcome {
  logged : list log_entry;
  sent : response
}.

(** The object literal passed to [BlogPosts.create]. *)
Record new_post : Type := mkNewPost {
  new_title : value;
  new_content : value;
  new_author : value
}.

(** The mongoose calls the handlers issue, indexed by what their promise
    resolves with.  [findById], [findByIdAndUpdate] and
    [findByIdAndRemove] resolve with [null] when no document matches. *)
Inductive query : Type → Type :=
| Find_limit (n : nat) : query (list document)
| FindById (id : string) : query (option document)
| Create (fields : new_post) : query document
| FindByIdAndUpdate (id : string) (set : gmap string value) : query (option document)
| FindByIdAndRemove (id : string) : query (option document).

Inductive settled (T : Type) : Type :=
| Resolved (x : T)
| Rejected (err : error).
Arguments Resolved {T} x.
Arguments Rejected {T} err.

(** A handler answers synchronously, throws synchronously (the default
    error handler of express then answers), or issues one query and
    answers from the promise chain attached to it. *)
Inductive action : Type :=
| Done (o : outcome)
| Uncaught (e : error)
| Await {T : Type} (q : query T) (k : settled T → outcome).

(** [promise.then(on_fulfilled).catch(on_rejected)]: an exception thrown
    inside [on_fulfilled] is routed to [on_rejected]. *)
Definition then_catch {T : Type} (on_fulfilled : T → js response)
    (on_rejected : error → outcome) (p : settled T) : outcome :=
  match p with
  | Resolved x =>
      match on_fulfilled x with
      | Ok r => mkOutcome [] r
      | Throw e => on_rejected e
      end
  | Rejected err => on_rejected err
  end.

Definition internal_server_error : response :=
  mkResponse 500 (JsonMessage "Internal server error").

(** [err => { console.error(err); res.status(500).json(...) }] *)
Definition catch_logging (err : error) : outcome :=
  mkOutcome [LogError err] internal_server_error.

(** [err => res.status(500).json(...)] *)
Definition catch_silent (err : error) : outcome :=
  mkOutcome [] internal_server_error.

(** [app.get("/blog-posts", ...)] *)
Definition get_blog_posts : action :=
  Await (Find_limit 10)
    (then_catch
       (λ blogposts,
          views ← js_map serialize blogposts;
          Ok (mkResponse 200 (JsonBlogposts views)))
       catch_logging).

(** [app.get("/blog-posts/:id", ...)]: [blogpost.serialize()] throws on
    the [null] of a lookup miss. *)
Definition get_blog_post (id : string) : action :=
  Await (FindById id)
    (then_catch
       (λ blogpost,
          match blogpost with
          | None => Throw TypeError
          | Some this => view ← serialize this; Ok (mkResponse 200 (JsonView view))
          end)
       catch_logging).

Definition requiredFields : list string := ["title"; "content"; "author"].

Definition missing_message (field : string) : string :=
  "Missing `" +:+ field +:+ "` in request body".

(** The [for] loop of the create handler: the first required field that
    is not [in] the body, scanning from index 0. *)
Fixpoint first_missing (fields : list string) (body : gmap string value)
    : option string :=
  match fields with
  | [] => None
  | field :: rest =>
      if negb (has_property field body) then Some field
      else first_missing rest body
  end.

(** [app.post("/blog-posts", ...)] *)
Definition post_blog_posts (body : gmap string value) : action :=
  match first_missing requiredFields body with
  | Some field =>
      let message := missing_message field in
      Done (mkOutcome [LogText message] (mkResponse 400 (Text message)))
  | None =>
      Await (Create {| new_title := get body "title";
                       new_content := get body "content";
                       new_author := get body "author" |})
        (then_catch
           (λ blogpost, view ← serialize blogpost; Ok (mkResponse 201 (JsonView view)))
           catch_logging)
  end.

(** [req.params.id && req.body.id && req.params.id === req.body.id] *)
Definition ids_match (id : string) (body : gmap string value) : bool :=
  truthy (VStr id) && truthy (get body "id")
  && strict_equals_string id (get body "id").

(** The template literal of the update handler; [req.params.id] is a
    string, [req.body.id] is converted. *)
Definition mismatch_message (id : string) (body : gmap string value) : js string :=
  body_id ← ToString (get body "id");
  Ok ("Request path id (" +:+ id +:+ ") and request body id (" +:+ body_id
      +:+ ") must match").

Definition updateableFields : list string := ["title"; "content"; "author"].

(** The [forEach] that fills [toUpdate], starting from [{}]. *)
Definition toUpdate (body : gmap string value) : gmap string value :=
  foldl (λ acc field,
           if has_property field body then <[field := get body field]> acc
           else acc)
        ∅ updateableFields.

(** [app.put("/blog-posts/:id", ...)] *)
Definition put_blog_post (id : string) (body : gmap string value) : action :=
  if negb (ids_match id body) then
    match mismatch_message id body with
    | Ok message =>
        Done (mkOutcome [LogText message] (mkResponse 400 (JsonMessage message)))
    | Throw e => Uncaught e
    end
  else
    Await (FindByIdAndUpdate id (toUpdate body))
      (then_catch (λ _, Ok (mkResponse 204 Empty)) catch_silent).

(** [app.delete("/blog-posts/:id", ...)] *)
Definition delete_blog_post (id : string) : action :=
  Await (FindByIdAndRemove id)
    (then_catch (λ _, Ok (mkResponse 204 Empty)) catch_silent).

(** The five routes registered on [app]. *)
Inductive request : Type :=
| GET_blog_posts
| GET_blog_post (id : string)
| POST_blog_posts (body : gmap string value)
| PUT_blog_post (id : string) (body : gmap string value)
| DELETE_blog_post (id : string).

Definition app (req : request) : action :=
  match req with
  | GET_blog_posts => get_blog_posts
  | GET_blog_post id => get_blog_post id
  | POST_blog_posts body => post_blog_posts body
  | PUT_blog_post id body => put_blog_post id body
  | DELETE_blog_post id => delete_blog_post id
  end.

(** The query a handler hands to the store, if any. *)
Definition issued (a : action) : option {T : Type & query T} :=
  match a with
  | Await q _ => Some (existT _ q)
  | Done _ | Uncaught _ => None
  end.

End Server.
Export Server.

(* ===================================================================== *)
(** ** The store: mongoose calls against an in-memory collection           *)
(* ===================================================================== *)

Module Store.

(** What the runtime supplies when a document is constructed: the clock
    read by the [Date.now] default and the driver-generated [_id]. *)
Record env : Type := mkEnv {
  now : Z;
  objectId : ObjectId
}.

(** What becomes of one request: the handler answers, or it throws and
    the answer is left to the default error handler of express (status
    500 with an error page). *)
Inductive result : Type :=
| Responded (o : outcome)
| Unhandled (e : error).

Definition nullish (v : value) : bool :=
  match v with
  | VUndefined | VNull => true
  | _ => false
  end.

(** Modelled from the spec: the [required] validator of the store layer
    (mongoose, not part of this repository).  A required text path must be
    non-empty at creation; any other required path must hold a value that
    is neither [null] nor [undefined]. *)
Definition checkRequired (t : SchemaType) (v : value) : bool :=
  match t with
  | String_ =>
      match v with
      | VStr s => negb (String.eqb s EmptyString)
      | _ => false
      end
  | Object_ | Date_ => negb (nullish v)
  end.

Definition find_document (oid : ObjectId) (db : list document) : option document :=
  List.find (λ d, String.eqb (_id d) oid) db.

(** The first document with the given [_id] is the one that
    [findOneAndUpdate] and [findOneAndRemove] act on. *)
Fixpoint update_first (oid : ObjectId) (f : document → document)
    (db : list document) : list document :=
  match db with
  | [] => []
  | d :: rest =>
      if String.eqb (_id d) oid then f d :: rest
      else d :: update_first oid f rest
  end.

Fixpoint remove_first (oid : ObjectId) (db : list document) : list document :=
  match db with
  | [] => []
  | d :: rest =>
      if String.eqb (_id d) oid then rest
      else d :: remove_first oid rest
  end.

Section Casts.

(** The casts of the String and Date schema types and of the [_id] of a
    query condition.  Which values they accept depends on the mongoose
    release; nothing below depends on it. *)
Variable castString : value → option string.
Variable castDate : value → option Z.
Variable castObjectId : string → option ObjectId.

(** Casting a value to the type of its path; [null] and [undefined] are
    kept, a Mixed path keeps everything. *)
Definition cast (p : SchemaPath) (v : value) : js value :=
  if nullish v then Ok v
  else
    match type p with
    | String_ =>
        match castString v with
        | Some s => Ok (VStr s)
        | None => Throw (CastError (path p))
        end
    | Date_ =>
        match castDate v with
        | Some t => Ok (VNum t)
        | None => Throw (CastError (path p))
        end
    | Object_ => Ok v
    end.

(** Validation of one path of a new document: a failed cast and a failed
    [required] validator both make [save] reject. *)
Definition validate_path (p : SchemaPath) (v : value) : js value :=
  match cast p v with
  | Ok v' =>
      if required p && negb (checkRequired (type p) v')
      then Throw (ValidationError [path p])
      else Ok v'
  | Throw _ => Throw (ValidationError [path p])
  end.

(** Modelled from the spec: document construction in the store layer
    (mongoose, not part of this repository), which assigns the id and the
    default time stamp.  The three supplied paths are validated in schema
    order and the error names the first offending path; [created] takes
    its [Date.now] default. *)
Definition new_document (e : env) (fields : new_post) : js document :=
  t ← validate_path title_path (new_title fields);
  c ← validate_path content_path (new_content fields);
  a ← validate_path author_path (new_author fields);
  Ok {| _id := objectId e; title := t; content := c; author := a;
        created := now e |}.

(** Casting the argument of [$set]: each declared path that occurs in it
    is cast to its type; names the schema does not declare are dropped. *)
Definition cast_update (set : gmap string value) : js (gmap string value) :=
  foldr (λ p acc,
           match set !! path p with
           | None => acc
           | Some v => m ← acc; v' ← cast p v; Ok (<[path p := v']> m)
           end)
        (Ok ∅) blogpostSchema.

(** Modelled from the spec: the partial update of the store layer
    (mongoose, not part of this repository), a write that modifies only the
    paths present in [$set] and leaves the others untouched.  Validators
    do not run on updates; [_id] cannot be set. *)
Definition apply_set (set : gmap string value) (d : document) : document :=
  {| _id := _id d;
     title := default (title d) (set !! "title");
     content := default (content d) (set !! "content");
     author := default (author d) (set !! "author");
     created := match set !! "created" with
                | Some (VNum t) => t
                | _ => created d
                end |}.

(** Modelled from the spec: the document store (mongoose over MongoDB),
    which is not part of this repository.  It exposes find-with-limit,
    find-by-id, create, update-by-id-with-partial-set and delete-by-id,
    assigns ids and default time stamps, resolves a lookup miss with no
    document and rejects a malformed id.  The collection [db] is kept in
    natural order. *)
Definition exec (e : env) {T : Type} (q : query T) (db : list document)
    : settled T * list document :=
  match q in query T return settled T * list document with
  | Find_limit n => (Resolved (take n db), db)
  | FindById id =>
      match castObjectId id with
      | None => (Rejected (CastError "_id"), db)
      | Some oid => (Resolved (find_document oid db), db)
      end
  | Create fields =>
      match new_document e fields with
      | Ok d =>
          match find_document (_id d) db with
          | None => (Resolved d, db ++ [d])
          | Some _ => (Rejected (Unavailable "E11000 duplicate key"), db)
          end
      | Throw err => (Rejected err, db)
      end
  | FindByIdAndUpdate id set =>
      match castObjectId id, cast_update set with
      | None, _ => (Rejected (CastError "_id"), db)
      | Some _, Throw err => (Rejected err, db)
      | Some oid, Ok set' =>
          (Resolved (find_document oid db), update_first oid (apply_set set') db)
      end
  | FindByIdAndRemove id =>
      match castObjectId id with
      | None => (Rejected (CastError "_id"), db)
      | Some oid => (Resolved (find_document oid db), remove_first oid db)
      end
  end.

(** One request served against the collection. *)
Definition run (e : env) (a : action) (db : list document)
    : result * list document :=
  match a with
  | Done o => (Responded o, db)
  | Uncaught err => (Unhandled err, db)
  | Await q k => let '(p, db') := exec e q db in (Responded (k p), db')
  end.

End Casts.

(** A concrete choice of casts, used to run examples: strings cast to
    themselves and integers to their decimal form, numbers are dates, and
    an [_id] is well formed when it has 24 characters. *)
Definition castString_example (v : value) : option string :=
  match v with
  | VStr s => Some s
  | VNum n => Some (pretty n)
  | _ => None
  end.

Definition castDate_example (v : value) : option Z :=
  match v with
  | VNum t => Some t
  | _ => None
  end.

Definition castObjectId_example (id : string) : option ObjectId :=
  if (String.length id =? 24)%nat then Some id else None.

Definition run_example : env → action → list document → result * list document :=
  run castString_example castDate_example castObjectId_example.

(** The fields of a stored document that a body without them must leave
    as they are: [_id] and [created] always, and each updateable field that
    the body does not carry. *)
Definition unchanged_outside (body : gmap string value) (d d' : document) : Prop :=
  _id d' = _id d
  ∧ created d' = created d
  ∧ (body !! "title" = None → title d' = title d)
  ∧ (body !! "content" = None → content d' = content d)
  ∧ (body !! "author" = None → author d' = author d).


End Store.
Export Store.

(* ===================================================================== *)
(** ** server.js: runServer and closeServer                               *)
(* ===================================================================== *)

Module Lifecycle.

(** Calls made on the two resources, in program order. *)
Inductive effect : Type :=
| Connect (databaseUrl : string)
| Listen (port : Z)
| Disconnect
| Close
| Log (text : string).

(** The process-wide state the two functions act on: the mongoose
    connection, the module variable [server] (the port stands for the
    [http.Server] object), and whether that server is bound. *)
Record process : Type := mkProcess {
  connected : bool;
  server : option Z;
  listening : bool;
  effects : list effect
}.

Definition stopped : process := mkProcess false None false [].

Definition emit (f : effect) (st : process) : process :=
  mkProcess (connected st) (server st) (listening st) (effects st ++ [f]).

Section Config.

(** [PORT], imported from [config.js]. *)
Variable PORT : Z.

(** [runServer(databaseUrl, port = PORT)].  [connect_error] is what
    mongoose passes to the connect callback, [listen_error] is the
    ["error"] event of the listener, if any.  The returned promise is
    settled by the first [resolve] or [reject] reached. *)
Definition runServer (connect_error listen_error : option error)
    (databaseUrl : string) (port : option Z) (st : process)
    : settled () * process :=
  let port := default PORT port in
  let st := emit (Connect databaseUrl) st in
  match connect_error with
  | Some err => (Rejected err, st)
  | None =>
      let st := mkProcess true (server st) (listening st) (effects st) in
      let st := emit (Listen port) st in
      let st := mkProcess (connected st) (Some port) (listening st) (effects st) in
      match listen_error with
      | None =>
          let st := mkProcess (connected st) (server st) true (effects st) in
          let st := emit (Log ("Your app is listening on port " +:+ pretty port)) st in
          (Resolved (), st)
      | Some err =>
          let st := mkProcess false (server st) false (effects st) in
          let st := emit Disconnect st in
          (Rejected err, st)
      end
  end.

(** [closeServer()]: disconnect, then close the listener; [server.close]
    on an unassigned [server] throws inside the [then] callback. *)
Definition closeServer (close_error : option error) (st : process)
    : settled () * process :=
  let st := emit Disconnect (mkProcess false (server st) (listening st) (effects st)) in
  let st := emit (Log "Closing server") st in
  match server st with
  | None => (Rejected TypeError, st)
  | Some _ =>
      let st := emit Close st in
      match close_error with
      | Some err => (Rejected err, st)
      | None => (Resolved (), mkProcess (connected st) (server st) false (effects st))
      end
  end.

End Config.

End Lifecycle.
Export Lifecycle.

(* ===================================================================== *)
(** ** Sample data                                                        *)
(* ===================================================================== *)

Module Examples.

Definition an_id : string := "5b0c1f2e9d3a4b0014a1c001".

Definition jdoe : value :=
  VObj (<["firstName" := VStr "J"]> (<["lastName" := VStr "Doe"]> ∅)).

Definition post1 : document :=
  mkDocument an_id (VStr "A") (VStr "B") jdoe 1527500000000.



(** A document whose author was set to [null] by an update. *)
Definition post_null_author : document :=
  mkDocument an_id (VStr "A") (VStr "B") VNull 1527500000000.

Definition env1 : env := mkEnv 1527500000000 an_id.

(** Request bodies. *)
Definition body_full : gmap string value :=
  <["title" := VStr "A"]> (<["content" := VStr "B"]> (<["author" := jdoe]> ∅)).

Definition body_only_content : gmap string value :=
  <["content" := VStr "B"]> ∅.

Definition body_blank : gmap string value :=
  <["title" := VStr EmptyString]>
    (<["content" := VStr EmptyString]> (<["author" := VNull]> ∅)).

Definition body_retitle : gmap string value :=
  <["id" := VStr an_id]> (<["title" := VStr "A2"]> ∅).

Definition body_null_author : gmap string value :=
  <["id" := VStr an_id]> (<["author" := VNull]> ∅).

(** A body whose [id] cannot be converted to a string. *)
Definition body_odd_id : gmap string value :=
  <["id" := VObj (<["toString" := VNum 1]> ∅)]> ∅.

End Examples.

(* ===================================================================== *)
(** ** The claim of the specification about [authorString], as worded     *)
(* ===================================================================== *)

Module AsSpecified.




End AsSpecified.

(* ===================================================================== *)
(** ** Notions used to state properties of the routes                     *)
(* ===================================================================== *)

Module Notions.

(** Values that have no own properties to read: [v.firstName] is
    [undefined] on them and does not throw. *)
Definition memberless (v : value) : bool :=
  match v with
  | VBool _ | VNum _ | VStr _ | VArr _ => true
  | VUndefined | VNull | VObj _ => false
  end.


(** No two documents of the collection share an [_id]. *)
Definition unique_ids (db : list document) : Prop :=
  NoDup (map _id db).

(** An author whose [firstName] cannot be converted to a string. *)
Definition odd_author : value :=
  VObj (<["firstName" := VObj (<["toString" := VNum 1]> ∅)]>
          (<["lastName" := VStr "Doe"]> ∅)).

Definition body_odd_author : gmap string value :=
  <["title" := VStr "A"]> (<["content" := VStr "B"]> (<["author" := odd_author]> ∅)).

Definition post_odd_author : document :=
  mkDocument Examples.an_id (VStr "A") (VStr "B") odd_author 1527500000000.

Definition another_id : string := "5b0c1f2e9d3a4b0014a1c002".

Definition post2 : document :=
  mkDocument another_id (VStr "C") (VStr "D") Examples.jdoe 1527500000001.


(** Requests that only read. *)
Definition is_read (req : request) : bool :=
  match req with
  | GET_blog_posts | GET_blog_post _ => true
  | _ => false
  end.

End Notions.
Export Notions.

(* ===================================================================== *)
(** ** Properties of the JavaScript fragment                              *)
(* ===================================================================== *)

Section JsFacts.

Lemma has_property_true k (o : gmap string value) :
  has_property k o = true ↔ is_Some (o !! k).
Proof. unfold has_property. apply bool_decide_eq_true. Qed.

Lemma has_property_false k (o : gmap string value) :
  has_property k o = false ↔ o !! k = None.
Proof.
  unfold has_property. rewrite bool_decide_eq_false.
  rewrite <- eq_None_not_Some. done.
Qed.

Lemma get_present k (o : gmap string value) v : o !! k = Some v → get o k = v.
Proof. unfold get. by intros ->. Qed.


(** [trim] leaves no white space at the front... *)
Lemma trim_start_head s c rest :
  trim_start s = String c rest → is_whitespace c = false.
Proof.
  induction s as [|c' s IH]; simpl; [done|].
  destruct (is_whitespace c') eqn:Hc'; [done|].
  intros [= <- <-]. done.
Qed.

Lemma trim_end_head c s :
  is_whitespace c = false →
  ∃ rest, trim_end (String c s) = String c rest.
Proof.
  intros Hc. simpl. destruct (trim_end s); rewrite ?Hc; eauto.
Qed.

Lemma trim_head s c rest : trim s = String c rest → is_whitespace c = false.
Proof.
  unfold trim. destruct (trim_start s) as [|c0 s0] eqn:Hs; simpl; [done|].
  pose proof (trim_start_head _ _ _ Hs) as Hc0.
  destruct (trim_end_head c0 s0 Hc0) as [r Hr]. simpl in Hr. rewrite Hr.
  by intros [= <- _].
Qed.

(** ... and none at the back. *)
Lemma trim_end_last s front c :
  trim_end s = front +:+ String c EmptyString → is_whitespace c = false.
Proof.
  revert front. induction s as [|c' s IH]; intros front; simpl.
  - destruct front; done.
  - destruct (trim_end s) as [|c1 r1] eqn:Hs.
    + destruct (is_whitespace c') eqn:Hc'.
      * destruct front; done.
      * destruct front as [|? [|??]]; simpl; intros [= ]; by subst.
    + destruct front as [|c2 front]; simpl.
      * intros [= ]. 
      * intros [= <- Heq]. by apply (IH front).
Qed.

Lemma trim_last s front c :
  trim s = front +:+ String c EmptyString → is_whitespace c = false.
Proof. apply trim_end_last. Qed.

End JsFacts.

Example trim_example : trim "  J Doe  " = "J Doe".
Proof. reflexivity. Qed.

Example ToString_array :
  ToString (VArr [VNum 1; VNull; VArr [VStr "a"; VBool true]]) = Ok "1,,a,true".
Proof. reflexivity. Qed.

Example ToString_own_toString :
  ToString (VObj (<["toString" := VNum 1]> ∅)) = Throw TypeError.
Proof. reflexivity. Qed.

(* ===================================================================== *)
(** ** POST /blog-posts: validation                                       *)
(* ===================================================================== *)

Section CreateValidation.

Implicit Types (body : gmap string value) (fields : list string).

Lemma first_missing_Some fields body field :
  first_missing fields body = Some field →
  ∃ before after,
    fields = before ++ field :: after
    ∧ Forall (λ f, has_property f body = true) before
    ∧ has_property field body = false.
Proof.
  induction fields as [|f fields IH]; simpl; [done|].
  destruct (has_property f body) eqn:Hf; simpl.
  - intros (before & after & -> & Hall & Hmiss)%IH.
    exists (f :: before), after. split_and!; [done| |done].
    by constructor.
  - intros [= <-]. exists [], fields. split_and!; [done| |done].
    constructor.
Qed.

Lemma first_missing_None fields body :
  first_missing fields body = None ↔
  Forall (λ f, has_property f body = true) fields.
Proof.
  induction fields as [|f fields IH]; simpl.
  - split; [constructor|done].
  - destruct (has_property f body) eqn:Hf; simpl.
    + rewrite IH. split; [by constructor|by inversion 1].
    + split; [done|]. inversion 1; congruence.
Qed.

Lemma first_missing_is_Some fields body :
  (∃ f, f ∈ fields ∧ has_property f body = false) →
  is_Some (first_missing fields body).
Proof.
  intros (f & Hin & Hf).
  destruct (first_missing fields body) eqn:Hfm; [by eexists|].
  apply first_missing_None in Hfm.
  rewrite Forall_forall in Hfm. specialize (Hfm f Hin). congruence.
Qed.


End CreateValidation.

(** C1. A POST /blog-posts whose body lacks one of title, content, author
    is answered 400 with the text message that names the first missing field
    in the order title, content, author; the handler returns at that point
    and hands nothing to the store. *)
Theorem C1_post_missing_field (body : gmap string value) :
  (∃ f, f ∈ requiredFields ∧ has_property f body = false) →
  ∃ field before after,
    ["title"; "content"; "author"] = before ++ field :: after
    ∧ Forall (λ f, has_property f body = true) before
    ∧ has_property field body = false
    ∧ post_blog_posts body
      = Done (mkOutcome
                [LogText ("Missing `" +:+ field +:+ "` in request body")]
                (mkResponse 400
                   (Text ("Missing `" +:+ field +:+ "` in request body"))))
    ∧ issued (post_blog_posts body) = None.
Proof.
  intros [field Hfield]%first_missing_is_Some.
  destruct (first_missing_Some _ _ _ Hfield) as (before & after & Hsplit & Hbefore & Hmiss).
  exists field, before, after. split_and!; try done.
  - unfold post_blog_posts. by rewrite Hfield.
  - unfold post_blog_posts. by rewrite Hfield.
Qed.

Lemma C1_post_missing_field_witness :
  ∃ field before after,
    ["title"; "content"; "author"] = before ++ field :: after
    ∧ Forall (λ f, has_property f Examples.body_only_content = true) before
    ∧ has_property field Examples.body_only_content = false
    ∧ post_blog_posts Examples.body_only_content
      = Done (mkOutcome
                [LogText ("Missing `" +:+ field +:+ "` in request body")]
                (mkResponse 400
                   (Text ("Missing `" +:+ field +:+ "` in request body"))))
    ∧ issued (post_blog_posts Examples.body_only_content) = None.
Proof.
  apply (C1_post_missing_field Examples.body_only_content).
  exists "title". split; [constructor | vm_compute; reflexivity].
Defined.

(** Title is reported even though author is missing as well. *)
Example post_only_content :
  post_blog_posts Examples.body_only_content
  = Done (mkOutcome [LogText "Missing `title` in request body"]
            (mkResponse 400 (Text "Missing `title` in request body"))).
Proof. reflexivity. Qed.

(* ===================================================================== *)
(** ** serialize and authorString                                         *)
(* ===================================================================== *)

Section Serialize.

Implicit Types (this : document).

(** [serialize] throws exactly when [authorString] does, and otherwise
    copies the four stored fields. *)
Lemma serialize_Ok this a :
  authorString this = Ok a →
  serialize this
  = Ok (mkView (_id this) (title this) (content this) a (created this)).
Proof. unfold serialize. by intros ->. Qed.

Lemma serialize_Throw this e :
  authorString this = Throw e → serialize this = Throw e.
Proof. unfold serialize. by intros ->. Qed.

Lemma serialize_inv this view :
  serialize this = Ok view →
  view_id view = _id this ∧ view_title view = title this
  ∧ view_content view = content this ∧ view_created view = created this
  ∧ authorString this = Ok (view_author view).
Proof.
  unfold serialize. destruct (authorString this); simpl; [|done].
  by intros [= <-].
Qed.

(** Reading [firstName] of a [null] or [undefined] author throws. *)
Lemma serialize_nullish_author this :
  nullish (author this) = true → serialize this = Throw TypeError.
Proof.
  intros Hnull. apply serialize_Throw. unfold authorString.
  destruct (author this); done.
Qed.

Lemma js_map_Forall2 {A B} (f : A → js B) xs ys :
  js_map f xs = Ok ys ↔ Forall2 (λ x y, f x = Ok y) xs ys.
Proof.
  revert ys. induction xs as [|x xs IH]; intros ys; simpl.
  - split; [by intros [= <-]; constructor|by inversion 1].
  - destruct (f x) as [y|e] eqn:Hx; simpl.
    + destruct (js_map f xs) as [ys'|e] eqn:Hxs; simpl.
      * split.
        -- intros [= <-]. constructor; [done|]. by apply IH.
        -- inversion 1 as [|???? Hy Hys]; subst.
           apply IH in Hys. congruence.
      * split; [done|]. inversion 1 as [|???? Hy Hys]; subst.
        by apply IH in Hys.
    + split; [done|]. inversion 1; congruence.
Qed.

End Serialize.

Example serialize_post1 :
  serialize Examples.post1
  = Ok (mkView Examples.an_id (VStr "A") (VStr "B") "J Doe" 1527500000000).
Proof. reflexivity. Qed.




(* ===================================================================== *)
(** ** PUT /blog-posts/:id                                                *)
(* ===================================================================== *)

Section Update.

Implicit Types (body set : gmap string value) (db : list document).

(** [toUpdate] is the body restricted to the updateable fields. *)
Lemma toUpdate_lookup body field :
  toUpdate body !! field
  = if bool_decide (field ∈ updateableFields) then body !! field else None.
Proof.
  unfold toUpdate, updateableFields, has_property, get. simpl.
  destruct (body !! "title") eqn:Ht, (body !! "content") eqn:Hc,
    (body !! "author") eqn:Ha; simpl;
    case_bool_decide as Hin;
    repeat (apply elem_of_cons in Hin as [->|Hin]);
    try (by apply elem_of_nil in Hin);
    try (rewrite !not_elem_of_cons in Hin; destruct Hin as (?&?&?&_));
    by simplify_map_eq.
Qed.

Lemma ids_match_true id body :
  ids_match id body = true ↔ id ≠ EmptyString ∧ body !! "id" = Some (VStr id).
Proof.
  unfold ids_match, get. simpl. split.
  - intros [[Hid _]%andb_prop Heq]%andb_prop.
    apply negb_true_iff, String.eqb_neq in Hid. split; [done|].
    destruct (body !! "id") as [[]|]; simpl in Heq; try done.
    apply String.eqb_eq in Heq. by subst.
  - intros [Hid ->]. simpl. rewrite String.eqb_refl.
    apply String.eqb_neq in Hid. by rewrite Hid.
Qed.

End Update.

(* ===================================================================== *)
(** ** The store                                                          *)
(* ===================================================================== *)

Section StoreFacts.

Variable castString : value → option string.
Variable castDate : value → option Z.
Variable castObjectId : string → option ObjectId.

Implicit Types (body set : gmap string value) (db : list document)
  (d : document) (oid : ObjectId).

#[local] Abbreviation cast := (cast castString castDate).
#[local] Abbreviation cast_update := (cast_update castString castDate).
#[local] Abbreviation exec := (exec castString castDate castObjectId).
#[local] Abbreviation run := (run castString castDate castObjectId).

(** Every entry of a cast [$set] comes from an entry of the argument. *)
Lemma cast_update_origin set set' k v' :
  cast_update set = Ok set' →
  set' !! k = Some v' →
  ∃ p v, p ∈ blogpostSchema ∧ path p = k ∧ set !! k = Some v ∧ cast p v = Ok v'.
Proof.
  unfold Store.cast_update. generalize blogpostSchema as schema.
  intros schema. revert set' v'.
  induction schema as [|p schema IH]; intros set' v'; simpl.
  - intros [= <-]. by rewrite lookup_empty.
  - destruct (set !! path p) as [v|] eqn:Hp.
    + destruct (foldr _ _ schema) as [m|] eqn:Hm; simpl; [|done].
      destruct (cast p v) as [w|] eqn:Hw; simpl; [|done].
      intros [= <-]. rewrite lookup_insert. case_decide as Hk.
      * intros [= <-]. subst k. exists p, v. split_and!; try done. by left.
      * intros (q & u & Hq & ?)%(IH m); [|done].
        exists q, u. split; [by right|done].
    + intros Hm (q & u & Hq & ?)%(IH set'); [|done].
      exists q, u. split; [by right|done].
Qed.

Lemma cast_update_absent set set' k :
  cast_update set = Ok set' → set !! k = None → set' !! k = None.
Proof.
  intros Hcast Hnone. destruct (set' !! k) as [v'|] eqn:Hk; [|done].
  destruct (cast_update_origin _ _ _ _ Hcast Hk) as (p & v & _ & _ & Hv & _).
  congruence.
Qed.

(** A [$set] built by the update handler leaves alone what the body does
    not carry. *)
Lemma apply_set_toUpdate body set' d :
  cast_update (toUpdate body) = Ok set' →
  unchanged_outside body d (apply_set set' d).
Proof.
  intros Hcast.
  assert (∀ k, toUpdate body !! k = None → set' !! k = None) as Habs
    by (intros k; by apply cast_update_absent).
  unfold unchanged_outside, apply_set; simpl. split_and!; [done|..].
  - rewrite Habs; [done|]. by rewrite toUpdate_lookup.
  - intros Hb. rewrite Habs; [done|]. rewrite toUpdate_lookup.
    by case_bool_decide.
  - intros Hb. rewrite Habs; [done|]. rewrite toUpdate_lookup.
    by case_bool_decide.
  - intros Hb. rewrite Habs; [done|]. rewrite toUpdate_lookup.
    by case_bool_decide.
Qed.

Lemma unchanged_outside_refl body d : unchanged_outside body d d.
Proof. by unfold unchanged_outside. Qed.

Lemma update_first_Forall2 (R : document → document → Prop) oid f db :
  (∀ d, R d d) → (∀ d, R d (f d)) →
  Forall2 R db (update_first oid f db).
Proof.
  intros Hrefl Hf. induction db as [|d db IH]; simpl; [constructor|].
  destruct (String.eqb (_id d) oid).
  - constructor; [done|]. by apply Forall_Forall2_diag, Forall_forall.
  - by constructor.
Qed.

Lemma find_document_update_first oid f db :
  (∀ d, _id (f d) = _id d) →
  find_document oid (update_first oid f db) = f <$> find_document oid db.
Proof.
  intros Hid. induction db as [|d db IH]; simpl; [done|].
  destruct (String.eqb (_id d) oid) eqn:Hd; simpl.
  - by rewrite Hid, Hd.
  - by rewrite Hd.
Qed.


Lemma remove_first_missing oid db :
  find_document oid db = None → remove_first oid db = db.
Proof.
  induction db as [|d db IH]; simpl; [done|].
  destruct (String.eqb (_id d) oid); [done|]. intros ?. f_equal. auto.
Qed.

(** A handler that answers without a query leaves the collection as it is. *)
Lemma run_no_query e a db : issued a = None → (run e a db).2 = db.
Proof. destruct a; simpl; done. Qed.

(** The update route never touches [_id], [created], or a field the body
    does not carry, whatever the store answers. *)
Lemma run_put_frame e id body db :
  Forall2 (unchanged_outside body) db (run e (put_blog_post id body) db).2.
Proof.
  assert (Forall2 (unchanged_outside body) db db) as Hsame.
  { apply Forall_Forall2_diag, Forall_forall. intros. apply unchanged_outside_refl. }
  unfold put_blog_post. destruct (negb (ids_match id body)).
  - by destruct (mismatch_message id body).
  - simpl. destruct (castObjectId id) as [oid|]; [|done].
    destruct (cast_update (toUpdate body)) as [set'|] eqn:Hcast; [|done].
    simpl. apply update_first_Forall2.
    + apply unchanged_outside_refl.
    + intros d. by apply apply_set_toUpdate.
Qed.

(** On a stored target the update route stores the cast of every field
    the body carries. *)
Lemma run_put_target e id oid body set' db d :
  ids_match id body = true →
  castObjectId id = Some oid →
  cast_update (toUpdate body) = Ok set' →
  find_document oid db = Some d →
  find_document oid (run e (put_blog_post id body) db).2
  = Some (apply_set set' d)
  ∧ ∀ k v', set' !! k = Some v' →
      ∃ p v, p ∈ blogpostSchema ∧ path p = k ∧ body !! k = Some v
             ∧ cast p v = Ok v'.
Proof.
  intros Hmatch Hoid Hcast Hfind. split.
  - unfold put_blog_post. rewrite Hmatch. simpl. rewrite Hoid, Hcast. simpl.
    rewrite find_document_update_first; [by rewrite Hfind|done].
  - intros k v' Hk.
    destruct (cast_update_origin _ _ _ _ Hcast Hk) as (p & v & Hp & Hpath & Hv & Hc).
    exists p, v. split_and!; try done.
    rewrite toUpdate_lookup in Hv. by case_bool_decide.
Qed.

(** What the delete and update routes answer does not depend on the
    collection, hence not on whether the target exists. *)
Lemma run_delete_response e id db1 db2 :
  (run e (delete_blog_post id) db1).1 = (run e (delete_blog_post id) db2).1.
Proof. simpl. by destruct (castObjectId id). Qed.

Lemma run_put_response e id body db1 db2 :
  (run e (put_blog_post id body) db1).1 = (run e (put_blog_post id body) db2).1.
Proof.
  unfold put_blog_post. destruct (negb (ids_match id body)).
  - by destruct (mismatch_message id body).
  - simpl. destruct (castObjectId id); [|done].
    by destruct (cast_update (toUpdate body)).
Qed.

End StoreFacts.

(** C3. A PUT /blog-posts/:id whose path id and body id match sends the
    store a $set that holds exactly those of title, content, author that
    the body carries, with the body's values; every other stored field,
    id and created included, is left as it was; and when the store
    resolves, the answer is 204 with an empty body. *)
Theorem C3_put_sets_present_fields
    (castString : value → option string) (castDate : value → option Z)
    (castObjectId : string → option ObjectId) (e : env)
    (id : string) (body : gmap string value) (db : list document) :
  ids_match id body = true →
  ∃ k,
    put_blog_post id body = Await (FindByIdAndUpdate id (toUpdate body)) k
    ∧ (∀ field,
         toUpdate body !! field
         = if bool_decide (field ∈ ["title"; "content"; "author"])
           then body !! field else None)
    ∧ (∀ found, k (Resolved found) = mkOutcome [] (mkResponse 204 Empty))
    ∧ Forall2 (unchanged_outside body) db
        (run castString castDate castObjectId e (put_blog_post id body) db).2.
Proof.
  intros Hmatch. eexists. split_and!.
  - unfold put_blog_post. rewrite Hmatch. simpl. reflexivity.
  - apply toUpdate_lookup.
  - done.
  - apply run_put_frame.
Qed.

Lemma C3_put_sets_present_fields_witness :
  ids_match Examples.an_id Examples.body_retitle = true
  ∧ ∃ k,
    put_blog_post Examples.an_id Examples.body_retitle
    = Await (FindByIdAndUpdate Examples.an_id (toUpdate Examples.body_retitle)) k
    ∧ (∀ field,
         toUpdate Examples.body_retitle !! field
         = if bool_decide (field ∈ ["title"; "content"; "author"])
           then Examples.body_retitle !! field else None)
    ∧ (∀ found, k (Resolved found) = mkOutcome [] (mkResponse 204 Empty))
    ∧ Forall2 (unchanged_outside Examples.body_retitle) [Examples.post1]
        (run_example Examples.env1
           (put_blog_post Examples.an_id Examples.body_retitle)
           [Examples.post1]).2.
Proof.
  split; [reflexivity|].
  apply (C3_put_sets_present_fields castString_example castDate_example
           castObjectId_example Examples.env1 Examples.an_id
           Examples.body_retitle [Examples.post1]).
  reflexivity.
Defined.

(** The scenario of the specification: retitling changes the title and
    nothing else. *)
Example put_retitle :
  run_example Examples.env1
    (put_blog_post Examples.an_id Examples.body_retitle) [Examples.post1]
  = (Responded (mkOutcome [] (mkResponse 204 Empty)),
     [mkDocument Examples.an_id (VStr "A2") (VStr "B") Examples.jdoe 1527500000000]).
Proof. vm_compute. reflexivity. Qed.

Section UpdateRejected.

Implicit Types (body : gmap string value).

(** Mismatching ids never reach the store. *)
Lemma put_mismatch_no_query id body :
  ids_match id body = false → issued (put_blog_post id body) = None.
Proof.
  intros Hm. unfold put_blog_post. rewrite Hm. simpl.
  by destruct (mismatch_message id body).
Qed.

(** When the body id converts to a string the answer is the 400 with the
    JSON message. *)
Lemma put_mismatch_400 id body body_id :
  ids_match id body = false →
  ToString (get body "id") = Ok body_id →
  put_blog_post id body
  = Done (mkOutcome
            [LogText ("Request path id (" +:+ id +:+ ") and request body id ("
                      +:+ body_id +:+ ") must match")]
            (mkResponse 400
               (JsonMessage ("Request path id (" +:+ id
                             +:+ ") and request body id (" +:+ body_id
                             +:+ ") must match")))).
Proof.
  intros Hm Hs. unfold put_blog_post, mismatch_message. rewrite Hm, Hs. done.
Qed.

(** When it does not, building the message throws. *)
Lemma put_mismatch_throws id body e :
  ids_match id body = false →
  ToString (get body "id") = Throw e →
  put_blog_post id body = Uncaught e.
Proof.
  intros Hm Hs. unfold put_blog_post, mismatch_message. rewrite Hm, Hs. done.
Qed.

Lemma put_mismatch_store_unchanged castString castDate castObjectId e id body db :
  ids_match id body = false →
  (run castString castDate castObjectId e (put_blog_post id body) db).2 = db.
Proof. intros Hm. by apply run_no_query, put_mismatch_no_query. Qed.

End UpdateRejected.

(** C4, at a body whose id is an object with an own, non-callable
    toString: the ids do not match, the handler throws while it builds the
    message, no 400 is sent; the store is not touched. *)
Theorem C4_put_mismatch_odd_id :
  ids_match "abc" Examples.body_odd_id = false
  ∧ put_blog_post "abc" Examples.body_odd_id = Uncaught TypeError
  ∧ run_example Examples.env1 (put_blog_post "abc" Examples.body_odd_id)
      [Examples.post1]
    = (Unhandled TypeError, [Examples.post1]).
Proof. split_and!; vm_compute; reflexivity. Qed.

(* ===================================================================== *)
(** ** GET /blog-posts/:id                                                *)
(* ===================================================================== *)

(** C5, as worded, at a stored record whose author is null: the lookup
    finds the record, yet the answer is the generic 500, because serialize
    throws inside the then callback. *)
Lemma C5_found_but_500_counterexample :
  find_document Examples.an_id [Examples.post_null_author]
  = Some Examples.post_null_author
  ∧ run_example Examples.env1 (get_blog_post Examples.an_id)
      [Examples.post_null_author]
    = (Responded
         (mkOutcome [LogError TypeError]
            (mkResponse 500 (JsonMessage "Internal server error"))),
       [Examples.post_null_author])
  ∧ ∀ view,
      (run_example Examples.env1 (get_blog_post Examples.an_id)
         [Examples.post_null_author]).1
      ≠ Responded (mkOutcome [] (mkResponse 200 (JsonView view))).
Proof. split_and!; [reflexivity | reflexivity | discriminate]. Qed.

(** Such a record is reachable through the API alone: the update route
    stores a null author, since validators do not run on updates. *)
Example null_author_reachable :
  (run_example Examples.env1 (post_blog_posts Examples.body_full) []).2
  = [Examples.post1]
  ∧ (run_example Examples.env1
       (put_blog_post Examples.an_id Examples.body_null_author)
       [Examples.post1]).2
    = [Examples.post_null_author].
Proof. split; vm_compute; reflexivity. Qed.

(** C5, amended. GET /blog-posts/:id issues one findById; if the lookup
    finds a record and that record serializes, the answer is 200 with the
    public view itself, not wrapped; if the lookup misses, the store rejects,
    or serialize throws on the record found, the answer is the same generic
    500. *)
Theorem C5_get_by_id (id : string) :
  ∃ k,
    get_blog_post id = Await (FindById id) k
    ∧ (∀ this view, serialize this = Ok view →
         k (Resolved (Some this)) = mkOutcome [] (mkResponse 200 (JsonView view)))
    ∧ (∀ this e, serialize this = Throw e →
         sent (k (Resolved (Some this)))
         = mkResponse 500 (JsonMessage "Internal server error"))
    ∧ sent (k (Resolved None))
      = mkResponse 500 (JsonMessage "Internal server error")
    ∧ (∀ err, sent (k (Rejected err))
              = mkResponse 500 (JsonMessage "Internal server error")).
Proof.
  eexists. split_and!; [reflexivity|..].
  - intros this view Hs. simpl. by rewrite Hs.
  - intros this e Hs. simpl. by rewrite Hs.
  - done.
  - done.
Qed.

Example get_post1 :
  run_example Examples.env1 (get_blog_post Examples.an_id) [Examples.post1]
  = (Responded
       (mkOutcome []
          (mkResponse 200
             (JsonView (mkView Examples.an_id (VStr "A") (VStr "B") "J Doe"
                               1527500000000)))),
     [Examples.post1]).
Proof. vm_compute. reflexivity. Qed.

(* ===================================================================== *)
(** ** POST /blog-posts: what gets persisted                              *)
(* ===================================================================== *)

Section Creation.

Variable castString : value → option string.
Variable castDate : value → option Z.

#[local] Abbreviation validate_path := (validate_path castString castDate).
#[local] Abbreviation new_document := (new_document castString castDate).




End Creation.



(** The store, not the handler, turns the blank body down. *)
Example post_blank_rejected :
  run_example Examples.env1 (post_blog_posts Examples.body_blank) []
  = (Responded
       (mkOutcome [LogError (ValidationError ["title"])]
          (mkResponse 500 (JsonMessage "Internal server error"))),
     []).
Proof. vm_compute. reflexivity. Qed.

(** The author need not be an object: any value but null and undefined
    passes both the handler and the schema. *)
Example post_string_author_created :
  (run_example Examples.env1
     (post_blog_posts (<["author" := VStr "Bob"]> Examples.body_full)) []).2
  = [mkDocument Examples.an_id (VStr "A") (VStr "B") (VStr "Bob") 1527500000000].
Proof. vm_compute. reflexivity. Qed.

Example post_full_created :
  run_example Examples.env1 (post_blog_posts Examples.body_full) []
  = (Responded
       (mkOutcome []
          (mkResponse 201
             (JsonView (mkView Examples.an_id (VStr "A") (VStr "B") "J Doe"
                               1527500000000)))),
     [Examples.post1]).
Proof. vm_compute. reflexivity. Qed.

(* ===================================================================== *)
(** ** GET /blog-posts                                                    *)
(* ===================================================================== *)

Lemma js_map_length {A B} (f : A → js B) xs ys :
  js_map f xs = Ok ys → length ys = length xs.
Proof. intros H%js_map_Forall2. symmetry. by eapply Forall2_length. Qed.

(** C7. A GET /blog-posts that succeeds answers 200 with the envelope
    holding a list of at most 10 items, and every item is the serialized
    public view of a stored document: the handler asks the store for at most
    10 documents and maps serialize over what it gets. *)
Theorem C7_get_list
    (castString : value → option string) (castDate : value → option Z)
    (castObjectId : string → option ObjectId) (e : env)
    (db db' : list document) (o : outcome) :
  run castString castDate castObjectId e get_blog_posts db = (Responded o, db') →
  status (sent o) = 200%Z →
  ∃ views,
    sent o = mkResponse 200 (JsonBlogposts views)
    ∧ length views ≤ 10
    ∧ Forall2 (λ this view, serialize this = Ok view) (take 10 db) views
    ∧ issued get_blog_posts = Some (existT _ (Find_limit 10))
    ∧ db' = db.
Proof.
  unfold get_blog_posts. simpl. intros [= <- <-]. simpl.
  destruct (js_map serialize (take 10 db)) as [views|] eqn:Hviews; simpl; [|done].
  intros _. exists views. split_and!; try done.
  - rewrite (js_map_length _ _ _ Hviews), length_take. lia.
  - by apply js_map_Forall2.
Qed.

Lemma C7_get_list_witness :
  ∃ views,
    sent (mkOutcome []
            (mkResponse 200
               (JsonBlogposts
                  [mkView Examples.an_id (VStr "A") (VStr "B") "J Doe"
                          1527500000000])))
    = mkResponse 200 (JsonBlogposts views)
    ∧ length views ≤ 10
    ∧ Forall2 (λ this view, serialize this = Ok view)
        (take 10 [Examples.post1]) views
    ∧ issued get_blog_posts = Some (existT _ (Find_limit 10))
    ∧ [Examples.post1] = [Examples.post1].
Proof.
  apply (C7_get_list castString_example castDate_example castObjectId_example
           Examples.env1 [Examples.post1] [Examples.post1]).
  - vm_compute. reflexivity.
  - reflexivity.
Defined.

(** Twelve stored documents, ten returned. *)
Example get_list_caps_at_10 :
  match (run_example Examples.env1 get_blog_posts
           (replicate 12 Examples.post1)).1 with
  | Responded o =>
      match payload (sent o) with
      | JsonBlogposts views => length views
      | _ => 0
      end
  | Unhandled _ => 0
  end = 10.
Proof. vm_compute. reflexivity. Qed.

(* ===================================================================== *)
(** ** Store errors                                                       *)
(* ===================================================================== *)

(** C8. Whatever route is hit and whatever the store rejects with, the
    answer is status 500 with the fixed body { message: "Internal server
    error" }; the answer does not depend on the error. *)
Theorem C8_store_error_is_generic_500 (req : request) :
  match app req with
  | Await q k =>
      (∀ err, sent (k (Rejected err))
              = mkResponse 500 (JsonMessage "Internal server error"))
      ∧ (∀ err err', sent (k (Rejected err)) = sent (k (Rejected err')))
  | Done _ | Uncaught _ => issued (app req) = None
  end.
Proof.
  destruct req as [|id|body|id body|id]; simpl.
  - done.
  - done.
  - unfold post_blog_posts. by destruct (first_missing requiredFields body).
  - unfold put_blog_post. destruct (negb (ids_match id body)).
    + by destruct (mismatch_message id body).
    + done.
  - done.
Qed.

(** Exceptions thrown inside a then callback take the same path. *)
Lemma then_catch_generic_500 {T} (f : T → js response) (p : settled T) o :
  then_catch f catch_logging p = o ∨ then_catch f catch_silent p = o →
  status (sent o) = 500%Z ∨ ∃ x, p = Resolved x ∧ f x = Ok (sent o).
Proof.
  destruct p as [x|err]; simpl.
  - destruct (f x) as [r|e] eqn:Hf.
    + intros [<-|<-]; right; by exists x.
    + intros [<-|<-]; by left.
  - intros [<-|<-]; by left.
Qed.

(* ===================================================================== *)
(** ** DELETE and PUT on an id without a record                           *)
(* ===================================================================== *)



Example put_missing_target :
  run_example Examples.env1
    (put_blog_post Examples.an_id Examples.body_retitle) []
  = (Responded (mkOutcome [] (mkResponse 204 Empty)), []).
Proof. vm_compute. reflexivity. Qed.

(* ===================================================================== *)
(** ** runServer                                                          *)
(* ===================================================================== *)

(** C9. runServer resolves exactly when both the store connection and the
    listener bind succeed, and then both are up; when the connection fails it
    rejects with that error and never calls listen; when the bind fails it
    disconnects the store, rejects with that error, and leaves neither a
    connection nor a bound listener behind. *)
Theorem C9_runServer (PORT : Z) (connect_error listen_error : option error)
    (databaseUrl : string) (port : option Z) (st : process) :
  let started := runServer PORT connect_error listen_error databaseUrl port st in
  (started.1 = Resolved () ↔ connect_error = None ∧ listen_error = None)
  ∧ (started.1 = Resolved () →
       connected started.2 = true ∧ listening started.2 = true
       ∧ effects started.2
         = effects st
           ++ [Connect databaseUrl; Listen (default PORT port);
               Log ("Your app is listening on port "
                    +:+ pretty (default PORT port))])
  ∧ (∀ err, connect_error = Some err →
       started.1 = Rejected err
       ∧ effects started.2 = effects st ++ [Connect databaseUrl]
       ∧ connected started.2 = connected st
       ∧ listening started.2 = listening st
       ∧ server started.2 = server st)
  ∧ (∀ err, connect_error = None → listen_error = Some err →
       started.1 = Rejected err
       ∧ effects started.2
         = effects st
           ++ [Connect databaseUrl; Listen (default PORT port); Disconnect]
       ∧ connected started.2 = false
       ∧ listening started.2 = false).
Proof.
  unfold runServer, emit.
  destruct connect_error as [ce|], listen_error as [le|]; simpl;
    rewrite <- ?(assoc_L (++)); simpl;
    split_and!; try done.
  - split; [done|]. by intros [[=] _].
  - by intros err [= <-].
  - split; [done|]. by intros [[=] _].
  - by intros err [= <-].
  - split; [done|]. by intros [_ [=]].
  - by intros err _ [= <-].
Qed.

Example runServer_bind_fails :
  runServer 8080 None (Some (Unavailable "EADDRINUSE")) "mongodb://localhost/blog"
    None stopped
  = (Rejected (Unavailable "EADDRINUSE"),
     mkProcess false (Some 8080%Z) false
       [Connect "mongodb://localhost/blog"; Listen 8080; Disconnect]).
Proof. reflexivity. Qed.

(* ===================================================================== *)
(** ** Further properties of the handlers                                 *)
(* ===================================================================== *)

Section Conversion.

(** String conversion of an array, one element at a time. *)
Lemma ToString_VArr_cons x y rest :
  ToString (VArr (x :: y :: rest))
  = (s ← (if nullish x then Ok EmptyString else ToString x);
     r ← ToString (VArr (y :: rest));
     Ok (s +:+ "," +:+ r)).
Proof. by destruct x. Qed.

Lemma ToString_VArr_one x :
  ToString (VArr [x]) = if nullish x then Ok EmptyString else ToString x.
Proof. by destruct x. Qed.

(** Induction on values that descends into arrays. *)
Lemma value_array_ind (P : value → Prop) :
  P VUndefined → P VNull → (∀ b, P (VBool b)) → (∀ n, P (VNum n)) →
  (∀ s, P (VStr s)) →
  (∀ items, Forall P items → P (VArr items)) →
  (∀ props, P (VObj props)) →
  ∀ v, P v.
Proof.
  intros Hu Hn Hb Hz Hs Ha Ho.
  fix IH 1.
  intros [| |b|n|s|items|props];
    [exact Hu|exact Hn|apply Hb|apply Hz|apply Hs| |apply Ho].
  apply Ha.
  exact ((fix go (l : list value) : Forall P l :=
            match l with
            | [] => List.Forall_nil P
            | x :: l' => List.Forall_cons P x l' (IH x) (go l')
            end) items).
Qed.

(** The only exception string conversion raises is [TypeError]. *)
Lemma ToString_Throw v e : ToString v = Throw e → e = TypeError.
Proof.
  revert e. induction v as [| |b|n|s|items IH|props] using value_array_ind;
    intros e; try done.
  - by destruct b.
  - induction items as [|x items IHitems]; [done|].
    pose proof (Forall_inv IH) as Hx. apply Forall_inv_tail in IH.
    specialize (IHitems IH). destruct items as [|y rest].
    + rewrite ToString_VArr_one. destruct (nullish x); [done|]. apply Hx.
    + rewrite ToString_VArr_cons.
      remember (ToString (VArr (y :: rest))) as tail eqn:Htail.
      destruct (nullish x), (ToString x) as [sx|ex] eqn:Hsx, tail as [r|e'];
        cbn; try done; intros [= <-]; auto.
  - simpl. destruct (has_property "toString" props); [|done].
    by intros [= <-].
Qed.


Lemma js_map_Throw {A B} (f : A → js B) xs x e :
  x ∈ xs → f x = Throw e → ∃ e', js_map f xs = Throw e'.
Proof.
  intros Hin Hx. induction Hin as [x xs|x y xs Hin IH]; simpl.
  - rewrite Hx. simpl. eauto.
  - destruct (f y); simpl; [|eauto].
    destruct (IH Hx) as [e' ->]. simpl. eauto.
Qed.

End Conversion.

(** X1. The update route hands a query to the store exactly when the path id
    is a non-empty string and the body carries that same string under id; a
    body id of any other type, a number included, never matches. *)
Theorem X1_put_reaches_store_iff (id : string) (body : gmap string value) :
  is_Some (issued (put_blog_post id body))
  ↔ id ≠ EmptyString ∧ body !! "id" = Some (VStr id).
Proof.
  rewrite <- ids_match_true. unfold put_blog_post.
  destruct (ids_match id body) eqn:Hm; simpl.
  - split; [done|]. intros _. by eexists.
  - destruct (mismatch_message id body); simpl; split;
      try done; by intros [? [=]].
Qed.

(** A path id 5 against the number 5 in the body is a mismatch. *)
Example put_number_id_mismatch :
  put_blog_post "5" (<["id" := VNum 5]> ∅)
  = Done (mkOutcome
            [LogText "Request path id (5) and request body id (5) must match"]
            (mkResponse 400
               (JsonMessage "Request path id (5) and request body id (5) must match"))).
Proof. vm_compute. reflexivity. Qed.

(** X2. The create route reads title, content and author of the body and
    nothing else: two bodies that agree on these three keys are handled
    alike, so a client cannot supply id or created. *)
Theorem X2_post_reads_three_fields (body body' : gmap string value) :
  (∀ f, f ∈ requiredFields → body !! f = body' !! f) →
  post_blog_posts body = post_blog_posts body'.
Proof.
  intros Hagree.
  assert (body !! "title" = body' !! "title") as Ht
    by (apply Hagree; repeat constructor).
  assert (body !! "content" = body' !! "content") as Hc
    by (apply Hagree; repeat constructor).
  assert (body !! "author" = body' !! "author") as Ha
    by (apply Hagree; repeat constructor).
  unfold post_blog_posts, requiredFields, first_missing, has_property, get.
  by rewrite Ht, Hc, Ha.
Qed.

Lemma X2_post_reads_three_fields_witness :
  post_blog_posts Examples.body_full
  = post_blog_posts
      (<["created" := VNum 0]> (<["id" := VStr "mine"]> Examples.body_full)).
Proof.
  apply (X2_post_reads_three_fields Examples.body_full
           (<["created" := VNum 0]> (<["id" := VStr "mine"]> Examples.body_full))).
  intros f Hf.
  repeat (apply elem_of_cons in Hf as [->|Hf]); [..|by apply elem_of_nil in Hf];
    vm_compute; reflexivity.
Defined.

(** X3. serialize fails exactly when the author is null or undefined, or
    when firstName or lastName cannot be converted to a string; the
    exception is always a TypeError. *)
Theorem X3_serialize_failure (this : document) (e : error) :
  serialize this = Throw e
  ↔ e = TypeError
    ∧ (nullish (author this) = true
       ∨ (∃ v, get_member (author this) "firstName" = Ok v
               ∧ ToString v = Throw TypeError)
       ∨ (∃ v, get_member (author this) "lastName" = Ok v
               ∧ ToString v = Throw TypeError)).
Proof.
  unfold serialize, authorString. split.
  - destruct (author this) as [| |b|n|s|items|props] eqn:Ha; simpl;
      try (by intros [= <-]; split; [|left]); try done.
    set (fn := get props "firstName"). set (ln := get props "lastName").
    destruct (ToString fn) as [first|e1] eqn:Hfn; simpl.
    + destruct (ToString ln) as [last|e2] eqn:Hln; simpl; [done|].
      intros [= <-]. pose proof (ToString_Throw _ _ Hln) as ->.
      split; [done|]. right; right. by exists ln.
    + intros [= <-]. pose proof (ToString_Throw _ _ Hfn) as ->.
      split; [done|]. right; left. by exists fn.
  - intros [-> [Hnull|[(v & Hv & Hs)|(v & Hv & Hs)]]].
    + by destruct (author this).
    + rewrite Hv. simpl. by rewrite Hs.
    + destruct (get_member (author this) "firstName") as [fn|e1] eqn:Hfn; simpl.
      * destruct (ToString fn) as [first|e1] eqn:Hfirst; simpl.
        -- rewrite Hv. simpl. by rewrite Hs.
        -- by rewrite (ToString_Throw _ _ Hfirst).
      * destruct (author this); simpl in *; congruence.
Qed.

(** X4. The author string of a serialized record never starts and never
    ends with white space. *)
Theorem X4_author_has_no_surrounding_space (this : document) (view : PublicView) :
  serialize this = Ok view →
  (∀ c rest, view_author view = String c rest → is_whitespace c = false)
  ∧ (∀ front c, view_author view = front +:+ String c EmptyString →
       is_whitespace c = false).
Proof.
  intros (_ & _ & _ & _ & Ha)%serialize_inv. unfold authorString in Ha.
  destruct (get_member _ "firstName") as [fn|]; simpl in Ha; [|done].
  destruct (ToString fn) as [first|]; simpl in Ha; [|done].
  destruct (get_member _ "lastName") as [ln|]; simpl in Ha; [|done].
  destruct (ToString ln) as [last|]; simpl in Ha; [|done].
  injection Ha as <-. split.
  - intros c rest. apply trim_head.
  - intros front c. apply trim_last.
Qed.

Lemma X4_author_has_no_surrounding_space_witness :
  (∀ c rest, "J Doe" = String c rest → is_whitespace c = false)
  ∧ (∀ front c, "J Doe" = front +:+ String c EmptyString →
       is_whitespace c = false).
Proof.
  apply (X4_author_has_no_surrounding_space Examples.post1
           (mkView Examples.an_id (VStr "A") (VStr "B") "J Doe" 1527500000000)).
  reflexivity.
Defined.

(** X5. When the stored author is a string, a number, a boolean or an
    array, serialize succeeds and the author string is the text
    "undefined undefined". *)
Theorem X5_memberless_author (this : document) :
  memberless (author this) = true →
  serialize this
  = Ok (mkView (_id this) (title this) (content this) "undefined undefined"
               (created this)).
Proof.
  intros Hm. apply serialize_Ok. unfold authorString.
  destruct (author this); done.
Qed.

Lemma X5_memberless_author_witness :
  serialize (mkDocument Examples.an_id (VStr "A") (VStr "B") (VStr "Bob") 0)
  = Ok (mkView Examples.an_id (VStr "A") (VStr "B") "undefined undefined" 0).
Proof.
  apply (X5_memberless_author
           (mkDocument Examples.an_id (VStr "A") (VStr "B") (VStr "Bob") 0)).
  reflexivity.
Defined.

(** X6. The list route is all or nothing: if serialize throws on one of
    the documents the store returns, the answer is the generic 500 and no
    partial list is sent. *)
Theorem X6_get_list_all_or_nothing (docs : list document) (d : document)
    (e : error) :
  d ∈ docs →
  serialize d = Throw e →
  ∃ k, get_blog_posts = Await (Find_limit 10) k
       ∧ sent (k (Resolved docs))
         = mkResponse 500 (JsonMessage "Internal server error").
Proof.
  intros Hin Hd. eexists. split; [reflexivity|]. simpl.
  destruct (js_map_Throw serialize docs d e Hin Hd) as [e' ->]. done.
Qed.

Lemma X6_get_list_all_or_nothing_witness :
  ∃ k, get_blog_posts = Await (Find_limit 10) k
       ∧ sent (k (Resolved [Examples.post1; Examples.post_null_author]))
         = mkResponse 500 (JsonMessage "Internal server error").
Proof.
  apply (X6_get_list_all_or_nothing
           [Examples.post1; Examples.post_null_author]
           Examples.post_null_author TypeError).
  - right. left.
  - reflexivity.
Defined.

(* ===================================================================== *)
(** ** Further properties of the routes against the store                 *)
(* ===================================================================== *)

Section Collection.

Implicit Types (db : list document) (d : document) (oid : ObjectId).

Lemma find_document_Some oid db d :
  find_document oid db = Some d → _id d = oid ∧ d ∈ db.
Proof.
  induction db as [|x db IH]; simpl; [done|].
  destruct (String.eqb (_id x) oid) eqn:Hx.
  - intros [= <-]. apply String.eqb_eq in Hx. split; [done|]. by left.
  - intros [? ?]%IH. split; [done|]. by right.
Qed.

Lemma find_document_None oid db :
  find_document oid db = None ↔ oid ∉ map _id db.
Proof.
  induction db as [|x db IH]; simpl.
  - split; [intros _; apply not_elem_of_nil|done].
  - rewrite not_elem_of_cons, <- IH.
    destruct (String.eqb (_id x) oid) eqn:Hx.
    + apply String.eqb_eq in Hx. split; [done|]. by intros [? _].
    + apply String.eqb_neq in Hx. split; [by intros ?; split|by intros [_ ?]].
Qed.


Lemma map_id_update_first oid (f : document → document) db :
  (∀ d, _id (f d) = _id d) →
  map _id (update_first oid f db) = map _id db.
Proof.
  intros Hf. induction db as [|x db IH]; simpl; [done|].
  destruct (String.eqb (_id x) oid); simpl; by rewrite ?Hf, ?IH.
Qed.

Lemma update_first_idempotent oid (f : document → document) db :
  (∀ d, _id (f d) = _id d) → (∀ d, f (f d) = f d) →
  update_first oid f (update_first oid f db) = update_first oid f db.
Proof.
  intros Hid Hf. induction db as [|x db IH]; simpl; [done|].
  destruct (String.eqb (_id x) oid) eqn:Hx; simpl.
  - by rewrite Hid, Hx, Hf.
  - by rewrite Hx, IH.
Qed.

Lemma filter_other_ids oid db :
  oid ∉ map _id db → filter (λ d, _id d ≠ oid) db = db.
Proof.
  induction db as [|x db IH]; simpl; [done|].
  intros [Hx Hdb]%not_elem_of_cons.
  rewrite filter_cons_True by done. by rewrite IH.
Qed.

(** With unique ids, removing the first match removes every match. *)
Lemma remove_first_filter oid db :
  unique_ids db →
  remove_first oid db = filter (λ d, _id d ≠ oid) db.
Proof.
  unfold unique_ids. induction db as [|x db IH]; simpl; [done|].
  intros [Hx Hdb]%NoDup_cons. rewrite filter_cons.
  destruct (String.eqb (_id x) oid) eqn:Hxo.
  - apply String.eqb_eq in Hxo. subst oid.
    rewrite decide_False by naive_solver.
    by rewrite filter_other_ids.
  - apply String.eqb_neq in Hxo. rewrite decide_True by done.
    by rewrite IH.
Qed.

Lemma remove_first_elem_of oid db x :
  x ∈ map _id (remove_first oid db) → x ∈ map _id db.
Proof.
  induction db as [|y db IH]; simpl; [done|].
  destruct (String.eqb (_id y) oid); simpl.
  - by right.
  - intros [->|?]%elem_of_cons; [by left|right; auto].
Qed.

Lemma unique_ids_remove_first oid db :
  unique_ids db → unique_ids (remove_first oid db).
Proof.
  unfold unique_ids. induction db as [|y db IH]; simpl; [done|].
  intros [Hy Hdb]%NoDup_cons. destruct (String.eqb (_id y) oid); [done|].
  simpl. apply NoDup_cons. split; [|auto].
  intros Hin. by apply Hy, (remove_first_elem_of oid).
Qed.

End Collection.

Section Requests.

Variable castString : value → option string.
Variable castDate : value → option Z.
Variable castObjectId : string → option ObjectId.

Implicit Types (body set : gmap string value) (db : list document)
  (d : document) (oid : ObjectId) (e : env).

#[local] Abbreviation new_document := (new_document castString castDate).
#[local] Abbreviation cast_update := (cast_update castString castDate).
#[local] Abbreviation run := (run castString castDate castObjectId).

Lemma apply_set_id set d : _id (apply_set set d) = _id d.
Proof. done. Qed.

Lemma apply_set_idempotent set d :
  apply_set set (apply_set set d) = apply_set set d.
Proof.
  unfold apply_set; simpl. f_equal.
  - by destruct (set !! "title").
  - by destruct (set !! "content").
  - by destruct (set !! "author").
  - by destruct (set !! "created") as [[]|].
Qed.


(** The Mixed path author is stored as it is sent. *)
Lemma cast_update_author set set' v :
  cast_update set = Ok set' →
  set !! "author" = Some v →
  set' !! "author" = Some v.
Proof.
  unfold Store.cast_update, blogpostSchema. simpl. intros Hcast Ha.
  rewrite Ha in Hcast.
  assert (cast castString castDate author_path v = Ok v) as Hv
    by (unfold cast; simpl; by destruct (nullish v)).
  rewrite Hv in Hcast.
  destruct (set !! "created") as [vc|]; simpl in Hcast;
    [destruct (cast _ _ created_path vc); simpl in Hcast; [|by repeat case_match]|];
    (destruct (set !! "content") as [vb|]; simpl in Hcast;
     [destruct (cast _ _ content_path vb); simpl in Hcast; [|by repeat case_match]|]);
    (destruct (set !! "title") as [vt|]; simpl in Hcast;
     [destruct (cast _ _ title_path vt); simpl in Hcast; [|done]|]);
    injection Hcast as <-; by simplify_map_eq.
Qed.

End Requests.

(** X7. A create whose document the store accepts but serialize cannot
    render is answered with the generic 500 although the document has been
    persisted. *)
Theorem X7_post_persists_then_500
    (castString : value → option string) (castDate : value → option Z)
    (castObjectId : string → option ObjectId) (e : env)
    (body : gmap string value) (db : list document) (d : document)
    (err : error) :
  (∀ f, f ∈ requiredFields → is_Some (body !! f)) →
  new_document castString castDate e
    (mkNewPost (get body "title") (get body "content") (get body "author"))
  = Ok d →
  find_document (_id d) db = None →
  serialize d = Throw err →
  run castString castDate castObjectId e (post_blog_posts body) db
  = (Responded
       (mkOutcome [LogError err]
          (mkResponse 500 (JsonMessage "Internal server error"))),
     db ++ [d]).
Proof.
  intros Hall Hd Hfresh Hser.
  assert (first_missing requiredFields body = None) as Hfm.
  { apply first_missing_None, Forall_forall. intros f Hf.
    by apply has_property_true, Hall. }
  unfold post_blog_posts. rewrite Hfm. simpl.
  rewrite Hd, Hfresh. simpl. by rewrite Hser.
Qed.

Lemma X7_post_persists_then_500_witness :
  run castString_example castDate_example castObjectId_example Examples.env1
    (post_blog_posts body_odd_author) []
  = (Responded
       (mkOutcome [LogError TypeError]
          (mkResponse 500 (JsonMessage "Internal server error"))),
     [] ++ [post_odd_author]).
Proof.
  apply (X7_post_persists_then_500 castString_example castDate_example
           castObjectId_example Examples.env1 body_odd_author []
           post_odd_author TypeError).
  - intros f Hf.
    repeat (apply elem_of_cons in Hf as [->|Hf]); [..|by apply elem_of_nil in Hf];
      vm_compute; eauto.
  - vm_compute. reflexivity.
  - reflexivity.
  - reflexivity.
Defined.



(** X9. No request can make two stored documents share an id: if the ids
    of the collection are unique before a request, they are unique after it,
    whatever the route and the body. *)
Theorem X9_ids_stay_unique
    (castString : value → option string) (castDate : value → option Z)
    (castObjectId : string → option ObjectId) (e : env)
    (req : request) (db : list document) :
  unique_ids db →
  unique_ids (run castString castDate castObjectId e (app req) db).2.
Proof.
  unfold unique_ids. intros Hdb. destruct req as [|id|body|id body|id]; simpl.
  - done.
  - by destruct (castObjectId id).
  - unfold post_blog_posts. destruct (first_missing requiredFields body); [done|].
    simpl. destruct (Store.new_document _ _ e _) as [d|] eqn:Hd; [|done].
    destruct (find_document (_id d) db) eqn:Hfind; [done|]. simpl.
    rewrite map_app. simpl. apply NoDup_app. split_and!; [done| |].
    + apply find_document_None in Hfind.
      intros x Hx Hx'. apply list_elem_of_singleton in Hx'. by subst.
    + apply NoDup_singleton.
  - unfold put_blog_post. destruct (negb (ids_match id body)).
    + by destruct (mismatch_message id body).
    + simpl. destruct (castObjectId id) as [oid|]; [|done].
      destruct (Store.cast_update _ _ (toUpdate body)) as [set'|]; [|done]. simpl.
      by rewrite map_id_update_first.
  - destruct (castObjectId id) as [oid|]; [|done]. simpl.
    by apply unique_ids_remove_first.
Qed.

Lemma X9_ids_stay_unique_witness :
  unique_ids
    (run castString_example castDate_example castObjectId_example
       (mkEnv 0 another_id) (app (POST_blog_posts Examples.body_full))
       [Examples.post1]).2.
Proof.
  apply (X9_ids_stay_unique castString_example castDate_example
           castObjectId_example (mkEnv 0 another_id)
           (POST_blog_posts Examples.body_full) [Examples.post1]).
  unfold unique_ids. simpl. apply NoDup_singleton.
Defined.

Section AfterDelete.

Implicit Types (db : list document) (oid : ObjectId).

Lemma find_document_filter_other oid db :
  find_document oid (filter (λ d, _id d ≠ oid) db) = None.
Proof.
  apply find_document_None. intros (d & Hid & Hd)%list_elem_of_fmap.
  apply list_elem_of_filter in Hd as [Hne _]. by subst.
Qed.

Lemma find_document_remove_first oid db :
  unique_ids db → find_document oid (remove_first oid db) = None.
Proof.
  intros Hu. rewrite remove_first_filter by done.
  apply find_document_filter_other.
Qed.

End AfterDelete.

(** X10. In a collection with unique ids, the delete route removes the
    documents with the given id and keeps every other document in its place;
    a get-by-id of the same id right after it is answered with the generic
    500, as for any lookup miss. *)
Theorem X10_delete_then_get
    (castString : value → option string) (castDate : value → option Z)
    (castObjectId : string → option ObjectId) (e e' : env)
    (id : string) (oid : ObjectId) (db : list document) :
  unique_ids db →
  castObjectId id = Some oid →
  (run castString castDate castObjectId e (delete_blog_post id) db).2
  = filter (λ d, _id d ≠ oid) db
  ∧ run castString castDate castObjectId e' (get_blog_post id)
      (run castString castDate castObjectId e (delete_blog_post id) db).2
    = (Responded
         (mkOutcome [LogError TypeError]
            (mkResponse 500 (JsonMessage "Internal server error"))),
       filter (λ d, _id d ≠ oid) db).
Proof.
  intros Hu Hoid. simpl. rewrite Hoid. simpl.
  rewrite remove_first_filter by done. split; [done|].
  by rewrite find_document_filter_other.
Qed.

Lemma X10_delete_then_get_witness :
  (run castString_example castDate_example castObjectId_example Examples.env1
     (delete_blog_post Examples.an_id) [Examples.post1; post2]).2
  = filter (λ d, _id d ≠ Examples.an_id) [Examples.post1; post2]
  ∧ run castString_example castDate_example castObjectId_example Examples.env1
      (get_blog_post Examples.an_id)
      (run castString_example castDate_example castObjectId_example
         Examples.env1 (delete_blog_post Examples.an_id)
         [Examples.post1; post2]).2
    = (Responded
         (mkOutcome [LogError TypeError]
            (mkResponse 500 (JsonMessage "Internal server error"))),
       filter (λ d, _id d ≠ Examples.an_id) [Examples.post1; post2]).
Proof.
  apply (X10_delete_then_get castString_example castDate_example
           castObjectId_example Examples.env1 Examples.env1 Examples.an_id
           Examples.an_id [Examples.post1; post2]).
  - unfold unique_ids. simpl. apply NoDup_cons. split.
    + intros Hin%list_elem_of_singleton. discriminate Hin.
    + apply NoDup_singleton.
  - reflexivity.
Defined.

(** X11. The update route is idempotent: sending the same PUT a second
    time gives the same answer and leaves the collection as the first one
    left it. *)
Theorem X11_put_idempotent
    (castString : value → option string) (castDate : value → option Z)
    (castObjectId : string → option ObjectId) (e e' : env)
    (id : string) (body : gmap string value) (db : list document) :
  run castString castDate castObjectId e' (put_blog_post id body)
    (run castString castDate castObjectId e (put_blog_post id body) db).2
  = run castString castDate castObjectId e (put_blog_post id body) db.
Proof.
  unfold put_blog_post. destruct (negb (ids_match id body)).
  - by destruct (mismatch_message id body).
  - simpl. destruct (castObjectId id) as [oid|] eqn:Hoid; simpl.
    + destruct (Store.cast_update _ _ (toUpdate body)) as [set'|] eqn:Hcast;
        simpl; rewrite ?Hoid, ?Hcast; simpl; [|done].
      f_equal. apply update_first_idempotent.
      * done.
      * apply apply_set_idempotent.
    + done.
Qed.

(** X12. In a collection with unique ids the delete route is idempotent:
    a second DELETE of the same id gets the same answer and changes nothing
    more. *)
Theorem X12_delete_idempotent
    (castString : value → option string) (castDate : value → option Z)
    (castObjectId : string → option ObjectId) (e e' : env)
    (id : string) (db : list document) :
  unique_ids db →
  run castString castDate castObjectId e' (delete_blog_post id)
    (run castString castDate castObjectId e (delete_blog_post id) db).2
  = run castString castDate castObjectId e (delete_blog_post id) db.
Proof.
  intros Hu. simpl. destruct (castObjectId id) as [oid|] eqn:Hoid; simpl;
    rewrite ?Hoid; simpl; [|done].
  f_equal. apply remove_first_missing. by apply find_document_remove_first.
Qed.

Lemma X12_delete_idempotent_witness :
  run castString_example castDate_example castObjectId_example Examples.env1
    (delete_blog_post Examples.an_id)
    (run castString_example castDate_example castObjectId_example
       Examples.env1 (delete_blog_post Examples.an_id) [Examples.post1]).2
  = run castString_example castDate_example castObjectId_example Examples.env1
      (delete_blog_post Examples.an_id) [Examples.post1].
Proof.
  apply (X12_delete_idempotent castString_example castDate_example
           castObjectId_example Examples.env1 Examples.env1 Examples.an_id
           [Examples.post1]).
  unfold unique_ids. simpl. apply NoDup_singleton.
Defined.

(** X13. The two GET routes never change the collection, and neither does
    any request that is answered 400. *)
Theorem X13_reads_and_rejections_keep_collection
    (castString : value → option string) (castDate : value → option Z)
    (castObjectId : string → option ObjectId) (e : env)
    (req : request) (db db' : list document) (o : outcome) :
  run castString castDate castObjectId e (app req) db = (Responded o, db') →
  is_read req = true ∨ status (sent o) = 400%Z →
  db' = db.
Proof.
  destruct req as [|id|body|id body|id]; simpl.
  - by intros [= _ <-].
  - destruct (castObjectId id); by intros [= _ <-].
  - intros Hrun [[=]|H400]. revert Hrun. unfold post_blog_posts.
    destruct (first_missing requiredFields body); simpl; [by intros [= _ <-]|].
    destruct (Store.new_document _ _ e _) as [d|]; simpl.
    + destruct (find_document (_id d) db); simpl.
      * by intros [= _ <-].
      * destruct (serialize d); simpl; intros [= <- _]; done.
    + by intros [= _ <-].
  - intros Hrun [[=]|H400]. revert Hrun. unfold put_blog_post.
    destruct (negb (ids_match id body)).
    + destruct (mismatch_message id body); simpl; [by intros [= _ <-]|done].
    + simpl. destruct (castObjectId id); [|by intros [= _ <-]].
      destruct (Store.cast_update _ _ (toUpdate body)); [|by intros [= _ <-]].
      simpl. intros [= <- _]. done.
  - intros Hrun [[=]|H400]. revert Hrun.
    destruct (castObjectId id); simpl; intros [= <- _]; done.
Qed.

Lemma X13_reads_and_rejections_keep_collection_witness :
  run castString_example castDate_example castObjectId_example Examples.env1
    (app (POST_blog_posts Examples.body_only_content)) [Examples.post1]
  = (Responded
       (mkOutcome [LogText "Missing `title` in request body"]
          (mkResponse 400 (Text "Missing `title` in request body"))),
     [Examples.post1])
  ∧ [Examples.post1] = [Examples.post1].
Proof.
  split; [reflexivity|].
  apply (X13_reads_and_rejections_keep_collection castString_example
           castDate_example castObjectId_example Examples.env1
           (POST_blog_posts Examples.body_only_content)
           [Examples.post1] [Examples.post1]
           (mkOutcome [LogText "Missing `title` in request body"]
              (mkResponse 400 (Text "Missing `title` in request body")))).
  - reflexivity.
  - right. reflexivity.
Defined.


(** X15. A store error is written to the server log by the two GET routes
    and by the create route, and by nothing else: the update and delete
    routes answer 500 without logging the error. *)
Theorem X15_which_routes_log_store_errors (req : request) :
  match app req with
  | Await q k =>
      ∀ err, logged (k (Rejected err))
             = match req with
               | PUT_blog_post _ _ | DELETE_blog_post _ => []
               | _ => [LogError err]
               end
  | Done _ | Uncaught _ => issued (app req) = None
  end.
Proof.
  destruct req as [|id|body|id body|id]; simpl; try done.
  - unfold post_blog_posts. by destruct (first_missing requiredFields body).
  - unfold put_blog_post. destruct (negb (ids_match id body)); [|done].
    by destruct (mismatch_message id body).
Qed.



(** A body without id is told that its id is undefined. *)
Example put_without_body_id :
  put_blog_post "abc" Examples.body_only_content
  = Done (mkOutcome
            [LogText "Request path id (abc) and request body id (undefined) must match"]
            (mkResponse 400
               (JsonMessage
                  "Request path id (abc) and request body id (undefined) must match"))).
Proof. vm_compute. reflexivity. Qed.

(** X19. The update route does not validate: a PUT that carries a null
    author for an existing record stores the null, and from then on the
    get-by-id route answers that record with the generic 500. *)
Theorem X19_put_null_author_breaks_get
    (castString : value → option string) (castDate : value → option Z)
    (castObjectId : string → option ObjectId) (e e' : env)
    (id : string) (oid : ObjectId) (body set' : gmap string value)
    (db : list document) (d : document) :
  ids_match id body = true →
  castObjectId id = Some oid →
  find_document oid db = Some d →
  body !! "author" = Some VNull →
  cast_update castString castDate (toUpdate body) = Ok set' →
  (∃ d', find_document oid
           (run castString castDate castObjectId e (put_blog_post id body) db).2
         = Some d'
         ∧ author d' = VNull)
  ∧ (run castString castDate castObjectId e' (get_blog_post id)
       (run castString castDate castObjectId e (put_blog_post id body) db).2).1
    = Responded
        (mkOutcome [LogError TypeError]
           (mkResponse 500 (JsonMessage "Internal server error"))).
Proof.
  intros Hmatch Hoid Hfind Hauthor Hcast.
  assert (set' !! "author" = Some VNull) as Hset.
  { apply (cast_update_author castString castDate (toUpdate body)); [done|].
    rewrite toUpdate_lookup. rewrite bool_decide_eq_true_2; [done|].
    repeat constructor. }
  assert (find_document oid
            (run castString castDate castObjectId e (put_blog_post id body) db).2
          = Some (apply_set set' d)) as Hnew.
  { unfold put_blog_post. rewrite Hmatch. simpl. rewrite Hoid, Hcast. simpl.
    rewrite find_document_update_first by done. by rewrite Hfind. }
  split.
  - exists (apply_set set' d). split; [done|]. simpl. by rewrite Hset.
  - simpl. rewrite Hoid. simpl. rewrite Hnew. simpl.
    rewrite serialize_nullish_author; [done|]. simpl. by rewrite Hset.
Qed.

Lemma X19_put_null_author_breaks_get_witness :
  (∃ d', find_document Examples.an_id
           (run castString_example castDate_example castObjectId_example
              Examples.env1
              (put_blog_post Examples.an_id Examples.body_null_author)
              [Examples.post1]).2
         = Some d'
         ∧ author d' = VNull)
  ∧ (run castString_example castDate_example castObjectId_example Examples.env1
       (get_blog_post Examples.an_id)
       (run castString_example castDate_example castObjectId_example
          Examples.env1
          (put_blog_post Examples.an_id Examples.body_null_author)
          [Examples.post1]).2).1
    = Responded
        (mkOutcome [LogError TypeError]
           (mkResponse 500 (JsonMessage "Internal server error"))).
Proof.
  apply (X19_put_null_author_breaks_get castString_example castDate_example
           castObjectId_example Examples.env1 Examples.env1 Examples.an_id
           Examples.an_id Examples.body_null_author
           (<["author" := VNull]> ∅) [Examples.post1] Examples.post1).
  - reflexivity.
  - reflexivity.
  - reflexivity.
  - reflexivity.
  - vm_compute. reflexivity.
Defined.

(* ===================================================================== *)
(** ** closeServer                                                        *)
(* ===================================================================== *)

(** X16. closeServer on a process in which runServer never assigned the
    server variable disconnects the store, logs, and then rejects with a
    TypeError without ever calling close. *)
Theorem X16_closeServer_before_start (close_error : option error) (st : process) :
  server st = None →
  (closeServer close_error st).1 = Rejected TypeError
  ∧ effects (closeServer close_error st).2
    = effects st ++ [Disconnect; Log "Closing server"]
  ∧ connected (closeServer close_error st).2 = false
  ∧ listening (closeServer close_error st).2 = listening st.
Proof.
  intros Hserver. unfold closeServer, emit. simpl. rewrite Hserver. simpl.
  by rewrite <- (assoc_L (++)).
Qed.

Lemma X16_closeServer_before_start_witness :
  (closeServer None stopped).1 = Rejected TypeError
  ∧ effects (closeServer None stopped).2
    = effects stopped ++ [Disconnect; Log "Closing server"]
  ∧ connected (closeServer None stopped).2 = false
  ∧ listening (closeServer None stopped).2 = listening stopped.
Proof. apply (X16_closeServer_before_start None stopped). reflexivity. Defined.

(** X17. A start that succeeds followed by a stop that succeeds leaves the
    store disconnected and the listener closed, having connected, bound,
    disconnected and closed in that order; whatever close reports, the store
    has been disconnected before close is called. *)
Theorem X17_start_then_stop (PORT : Z) (databaseUrl : string)
    (port : option Z) (close_error : option error) (st : process) :
  let started := runServer PORT None None databaseUrl port st in
  let closed := closeServer close_error started.2 in
  (closed.1 = Resolved () ↔ close_error = None)
  ∧ (∀ err, close_error = Some err → closed.1 = Rejected err)
  ∧ connected closed.2 = false
  ∧ (close_error = None → listening closed.2 = false)
  ∧ effects closed.2
    = effects st
      ++ [Connect databaseUrl; Listen (default PORT port);
          Log ("Your app is listening on port " +:+ pretty (default PORT port));
          Disconnect; Log "Closing server"; Close].
Proof.
  unfold runServer, closeServer, emit. simpl.
  destruct close_error as [err|]; simpl;
    rewrite <- !(assoc_L (++)); simpl; split_and!; try done.
  - by intros ? [= <-].
Qed.

(* ===================================================================== *)
(** ** What a successful write stores                                     *)
(* ===================================================================== *)

Section Writes.

Variable castString : value → option string.
Variable castDate : value → option Z.

#[local] Abbreviation cast := (cast castString castDate).

(** Every declared path that occurs in a [$set] occurs, cast, in the cast
    [$set]. *)
Lemma cast_update_path (schema : list SchemaPath) (set m : gmap string value)
    (p : SchemaPath) (v : value) :
  NoDup (map path schema) →
  p ∈ schema →
  foldr (λ q acc,
           match set !! path q with
           | None => acc
           | Some w => m' ← acc; w' ← cast q w; Ok (<[path q := w']> m')
           end)
        (Ok ∅) schema = Ok m →
  set !! path p = Some v →
  ∃ v', m !! path p = Some v' ∧ cast p v = Ok v'.
Proof.
  revert m. induction schema as [|q schema IH]; intros m; simpl.
  - by intros _ ?%elem_of_nil.
  - intros [Hq Hnd]%NoDup_cons [->|Hp]%elem_of_cons Hfold Hv.
    + rewrite Hv in Hfold.
      destruct (foldr _ _ schema) as [m0|]; simpl in Hfold; [|done].
      destruct (cast q v) as [v'|]; simpl in Hfold; [|done].
      injection Hfold as <-. exists v'. by rewrite lookup_insert_eq.
    + assert (path q ≠ path p) as Hne.
      { intros Heq. apply Hq. rewrite Heq. by apply list_elem_of_fmap_2. }
      destruct (set !! path q) as [w|].
      * destruct (foldr _ _ schema) as [m0|] eqn:Hm0; simpl in Hfold; [|done].
        destruct (cast q w) as [w'|]; simpl in Hfold; [|done].
        injection Hfold as <-. rewrite lookup_insert_ne by done.
        by apply IH.
      * by apply IH.
Qed.

Lemma blogpostSchema_paths : NoDup (map path blogpostSchema).
Proof. apply (bool_decide_unpack _). vm_compute. exact I. Qed.

End Writes.

(** X20. After a PUT with matching ids on an existing record, the record
    holds, for each of title, content and author that the body carries, the
    store's cast of the body's value (the author exactly as sent), and its id
    and creation time are those it had. *)
Theorem X20_put_stores_body_values
    (castString : value → option string) (castDate : value → option Z)
    (castObjectId : string → option ObjectId) (e : env)
    (id : string) (oid : ObjectId) (body set' : gmap string value)
    (db : list document) (d : document) :
  ids_match id body = true →
  castObjectId id = Some oid →
  find_document oid db = Some d →
  cast_update castString castDate (toUpdate body) = Ok set' →
  ∃ d',
    find_document oid
      (run castString castDate castObjectId e (put_blog_post id body) db).2
    = Some d'
    ∧ _id d' = _id d
    ∧ created d' = created d
    ∧ (∀ v, body !! "title" = Some v →
         cast castString castDate title_path v = Ok (title d'))
    ∧ (∀ v, body !! "content" = Some v →
         cast castString castDate content_path v = Ok (content d'))
    ∧ (∀ v, body !! "author" = Some v → author d' = v).
Proof.
  intros Hmatch Hoid Hfind Hcast.
  assert (∀ p v, p ∈ blogpostSchema → path p ∈ updateableFields →
            body !! path p = Some v →
            ∃ v', set' !! path p = Some v'
                  ∧ cast castString castDate p v = Ok v') as Hpath.
  { intros p v Hp Hup Hv.
    apply (cast_update_path castString castDate blogpostSchema (toUpdate body));
      [apply blogpostSchema_paths|done|done|].
    rewrite toUpdate_lookup. by rewrite bool_decide_eq_true_2. }
  assert (set' !! "created" = None) as Hcreated.
  { apply (cast_update_absent castString castDate (toUpdate body)); [done|].
    by rewrite toUpdate_lookup. }
  exists (apply_set set' d). split_and!.
  - unfold put_blog_post. rewrite Hmatch. simpl. rewrite Hoid, Hcast. simpl.
    rewrite find_document_update_first by done. by rewrite Hfind.
  - done.
  - simpl. by rewrite Hcreated.
  - intros v Hv.
    destruct (Hpath title_path v) as (v' & Hv' & Hc);
      [repeat constructor..|done|]. simpl in *. by rewrite Hv'.
  - intros v Hv.
    destruct (Hpath content_path v) as (v' & Hv' & Hc);
      [repeat constructor..|done|]. simpl in *. by rewrite Hv'.
  - intros v Hv.
    destruct (Hpath author_path v) as (v' & Hv' & Hc);
      [repeat constructor..|done|]. simpl in *. rewrite Hv'. simpl.
    unfold cast in Hc. simpl in Hc. destruct (nullish v); congruence.
Qed.

Lemma X20_put_stores_body_values_witness :
  ∃ d',
    find_document Examples.an_id
      (run castString_example castDate_example castObjectId_example
         Examples.env1 (put_blog_post Examples.an_id Examples.body_retitle)
         [Examples.post1]).2
    = Some d'
    ∧ _id d' = _id Examples.post1
    ∧ created d' = created Examples.post1
    ∧ (∀ v, Examples.body_retitle !! "title" = Some v →
         cast castString_example castDate_example title_path v = Ok (title d'))
    ∧ (∀ v, Examples.body_retitle !! "content" = Some v →
         cast castString_example castDate_example content_path v
         = Ok (content d'))
    ∧ (∀ v, Examples.body_retitle !! "author" = Some v → author d' = v).
Proof.
  apply (X20_put_stores_body_values castString_example castDate_example
           castObjectId_example Examples.env1 Examples.an_id Examples.an_id
           Examples.body_retitle (<["title" := VStr "A2"]> ∅)
           [Examples.post1] Examples.post1).
  - reflexivity.
  - reflexivity.
  - reflexivity.
  - vm_compute. reflexivity.
Defined.


